(** * The media-scanner workflow machine

    A shallow embedding of [mediaScannerMachine]
    (examples/workflow-media-scanner/src/mediaScannerMachine.ts): the machine
    configuration is transcribed as data, state by state, and run by a small
    interpreter of the configuration language ([createMachine], [assign],
    [invoke], entry actions). *)

From stdpp Require Import base gmap strings list.

Open Scope string_scope.
Open Scope list_scope.

(** ** Values of unknown shape

    Payloads the machine never looks into (the rejection reason of a promise,
    the value [moveFiles] resolves with) and the optional [params] of an
    action object. *)
Inductive JsValue : Type :=
| js_undefined
| js_string (s : string)
| js_array (items : list string)
| js_object (properties : list (string * list string)).

(** ** The configuration language and its interpreter

    Modelled from the spec: the machine is a configuration handed to
    [createMachine]; the library that runs such configurations is not among
    the sources.  The rules below are those of the spec's transition table
    and effect-invocation contract: an event that the current state does not
    list is ignored; a listed event drives exactly one transition, whose
    actions update the context by replacing the named fields; entering a
    state runs its entry actions and starts its one asynchronous operation on
    a projection of the context; a failure for which no transition is
    declared is a fault of the machine, which then stops. *)
Module xstate.

(** The second argument of [createMachine]: named implementations.  Only the
    keys matter to the interpreter: an action object is executed when its
    [type] is a key of [actions]. *)
Module Implementations.
Record t : Type := { actions : gset string; guards : gset string; delays : gset string }.
End Implementations.

(** [snapshot.status]; the machines considered have no final state, so
    [done] is left out. *)
Inductive Status : Type := active | error.

Section Interpreter.
Context {StateValue MachineContext Input Event Call : Type}.

(** An action of a transition or of a state's [entry]: either
    [assign(...)], already applied to the event that selected it, or an
    action object [{ type, params }]. *)
Inductive Action : Type :=
| assign (assigner : MachineContext -> MachineContext)
| action_object (type : string) (params : option JsValue).

Record Transition : Type := { target : StateValue; actions : list Action }.

(** [invoke: { id, input, src }]; [src] is the call the promise makes on
    its input.  The [onDone] and [onError] lists of an invocation live in
    the state's [on] table, under the events
    [xstate.done.actor.<id>] and [xstate.error.actor.<id>]. *)
Record InvokeConfig : Type := {
  InvokeInput : Type;
  id : string;
  input : MachineContext -> InvokeInput;
  src : InvokeInput -> Call
}.

Record StateNode : Type := {
  entry : list Action;
  invoke : option InvokeConfig;
  on : Event -> list Transition
}.

Record MachineConfig : Type := {
  context : Input -> MachineContext;
  initial : StateValue;
  states : StateValue -> StateNode
}.

Record Machine : Type := createMachine {
  config : MachineConfig;
  implementations : Implementations.t
}.

Record Snapshot : Type := {
  value : StateValue;
  snapshot_context : MachineContext;
  status : Status
}.

(** What a step asks of the outside world. *)
Inductive Effect : Type :=
| spawnChild (id : string) (call : Call)
| executeAction (type : string) (params : option JsValue)
    (info : MachineContext) (exec : bool).

(** Recognises [xstate.error.actor.*] events. *)
Variable isErrorActorEvent : Event -> bool.

Variable machine : Machine.

(** Modelled from the spec: actions run in order; [assign] replaces the
    context, an action object is handed to the executor together with
    the implementation found for its [type], if any. *)
Fixpoint resolveActions (todo : list Action) (ctx : MachineContext)
  : MachineContext * list Effect :=
  match todo with
  | [] => (ctx, [])
  | assign assigner :: rest => resolveActions rest (assigner ctx)
  | action_object type params :: rest =>
      let exec := bool_decide (type ∈ Implementations.actions (implementations machine)) in
      let '(ctx', effects) := resolveActions rest ctx in
      (ctx', executeAction type params ctx exec :: effects)
  end.

(** Modelled from the spec: entering a state runs its [entry] actions and
    starts its invocation. *)
Definition enterState (state : StateValue) (ctx : MachineContext)
  : MachineContext * list Effect :=
  let node := states (config machine) state in
  let '(ctx', effects) := resolveActions (entry node) ctx in
  (ctx',
   effects ++
   match invoke node with
   | Some inv => [spawnChild (id inv) (src inv (input inv ctx'))]
   | None => []
   end).

(** The transition selected for [event]: the first candidate of the
    current state's table (the machine has no guards). *)
Definition selectTransition (snapshot : Snapshot) (event : Event) : option Transition :=
  match status snapshot with
  | active => head (on (states (config machine) (value snapshot)) event)
  | error => None
  end.

(** Modelled from the spec: one event.  A machine that is no longer
    active drops it; an event without a transition is ignored, except
    that an unhandled actor error puts the machine in status [error]. *)
Definition transition (snapshot : Snapshot) (event : Event) : Snapshot * list Effect :=
  match status snapshot with
  | active =>
      match selectTransition snapshot event with
      | None =>
          if isErrorActorEvent event
          then ({| value := value snapshot;
                   snapshot_context := snapshot_context snapshot;
                   status := error |}, [])
          else (snapshot, [])
      | Some t =>
          let '(ctx1, effects1) := resolveActions (actions t) (snapshot_context snapshot) in
          let '(ctx2, effects2) := enterState (target t) ctx1 in
          ({| value := target t; snapshot_context := ctx2; status := active |},
           effects1 ++ effects2)
      end
  | error => (snapshot, [])
  end.

Definition getInitialSnapshot (inp : Input) : Snapshot * list Effect :=
  let '(ctx, effects) :=
    enterState (initial (config machine)) (context (config machine) inp) in
  ({| value := initial (config machine); snapshot_context := ctx; status := active |},
   effects).

(** The snapshots and effects of a sequence of events, step by step. *)
Fixpoint run (snapshot : Snapshot) (events : list Event) : list (Snapshot * list Effect) :=
  match events with
  | [] => []
  | event :: rest =>
      let step := transition snapshot event in
      step :: run (fst step) rest
  end.

Inductive reachable (inp : Input) : Snapshot -> Prop :=
| reachable_initial : reachable inp (fst (getInitialSnapshot inp))
| reachable_transition snapshot event :
    reachable inp snapshot -> reachable inp (fst (transition snapshot event)).

(** The action objects a list of effects hands to the executor. *)
Fixpoint executed (effects : list Effect) : list Effect :=
  match effects with
  | [] => []
  | spawnChild _ _ :: rest => executed rest
  | executeAction type params info exec :: rest =>
      executeAction type params info exec :: executed rest
  end.

End Interpreter.

Arguments Action : clear implicits.
Arguments Transition : clear implicits.
Arguments InvokeConfig : clear implicits.
Arguments StateNode : clear implicits.
Arguments MachineConfig : clear implicits.
Arguments Machine : clear implicits.
Arguments Snapshot : clear implicits.
Arguments Effect : clear implicits.
End xstate.

(** ** The collaborators *)

(** Modelled from the spec: the module [./fileHandlers] is imported by the
    machine but is not part of the sources.  Its four functions appear here
    as the calls the machine issues, and the values they settle with have the
    shapes of the spec's interface table: [checkFilePermissions] resolves
    with [{ dirsToEvaluate, dirsToReport }] and rejects with
    [{ dirsToReport }], [evaluateFiles] resolves with [{ dirsToMove }],
    [scanDirectories] resolves with a sequence of paths. *)
Module fileHandlers.
Inductive Call : Type :=
| scanDirectories (basePath : string)
| checkFilePermissions (directoriesToCheck : list string)
| evaluateFiles (dirsToEvaluate acceptedFileTypes : list string)
| moveFiles (dirsToMove : list string) (destinationPath : string).

Module Permissions.
Record t : Type := { dirsToEvaluate : list string; dirsToReport : list string }.
End Permissions.

Module PermissionsError.
Record t : Type := { dirsToReport : list string }.
End PermissionsError.

Module Evaluation.
Record t : Type := { dirsToMove : list string }.
End Evaluation.
End fileHandlers.

(** ** The machine's types ([types: { input, events, context }]) *)

Module Input.
Record t : Type := { basePath : string; destinationPath : string }.
End Input.

Record MachineContext : Type := {
  basePath : string;
  destinationPath : string;
  directoriesToCheck : list string;
  dirsToEvaluate : list string;
  dirsToMove : list string;
  filesToEmail : list string;
  dirsToReport : list string;
  processedFiles : list string;
  acceptedFileTypes : list string
}.

(** The two declared events, and the events by which the interpreter reports
    that the promise of an invocation settled: [xstate.done.actor.<id>]
    carries [output], [xstate.error.actor.<id>] carries [error]. *)
Inductive Event : Type :=
| START_SCAN
| RESTART
| done_actor_scanLibrary (output : list string)
| error_actor_scanLibrary (error : JsValue)
| done_actor_checkFilePermissions (output : fileHandlers.Permissions.t)
| error_actor_checkFilePermissions (error : fileHandlers.PermissionsError.t)
| done_actor_evaluatingFiles (output : fileHandlers.Evaluation.t)
| error_actor_evaluatingFiles (error : JsValue)
| done_actor_moveFiles (output : JsValue)
| error_actor_moveFiles (error : JsValue).

Definition isErrorActorEvent (event : Event) : bool :=
  match event with
  | error_actor_scanLibrary _ | error_actor_checkFilePermissions _
  | error_actor_evaluatingFiles _ | error_actor_moveFiles _ => true
  | _ => false
  end.

(** The events an embedding caller can send. *)
Definition isExternal (event : Event) : bool :=
  match event with
  | START_SCAN | RESTART => true
  | _ => false
  end.

Inductive StateValue : Type :=
| idle
| Scanning
| CheckingFilePermissions
| ReportingErrors
| EvaluatingFiles
| MovingFiles.

(** ** [assign]

    The object an assigner returns names some properties of the context; the
    context is replaced by a copy in which these, and only these, have the
    new values. *)
Module Partial.
Inductive property : Type :=
| basePath (v : string)
| destinationPath (v : string)
| directoriesToCheck (v : list string)
| dirsToEvaluate (v : list string)
| dirsToMove (v : list string)
| filesToEmail (v : list string)
| dirsToReport (v : list string)
| processedFiles (v : list string)
| acceptedFileTypes (v : list string).
End Partial.

Definition merge (ctx : MachineContext) (p : Partial.property) : MachineContext :=
  let bp := basePath ctx in
  let dp := destinationPath ctx in
  let dc := directoriesToCheck ctx in
  let de := dirsToEvaluate ctx in
  let dm := dirsToMove ctx in
  let fe := filesToEmail ctx in
  let dr := dirsToReport ctx in
  let pf := processedFiles ctx in
  let af := acceptedFileTypes ctx in
  match p with
  | Partial.basePath v => Build_MachineContext v dp dc de dm fe dr pf af
  | Partial.destinationPath v => Build_MachineContext bp v dc de dm fe dr pf af
  | Partial.directoriesToCheck v => Build_MachineContext bp dp v de dm fe dr pf af
  | Partial.dirsToEvaluate v => Build_MachineContext bp dp dc v dm fe dr pf af
  | Partial.dirsToMove v => Build_MachineContext bp dp dc de v fe dr pf af
  | Partial.filesToEmail v => Build_MachineContext bp dp dc de dm v dr pf af
  | Partial.dirsToReport v => Build_MachineContext bp dp dc de dm fe v pf af
  | Partial.processedFiles v => Build_MachineContext bp dp dc de dm fe dr v af
  | Partial.acceptedFileTypes v => Build_MachineContext bp dp dc de dm fe dr pf v
  end.

Definition assign (partial : list Partial.property)
  : xstate.Action MachineContext :=
  xstate.assign (fun ctx => fold_left merge partial ctx).

(** ** The machine *)

Abbreviation Transition := (xstate.Transition StateValue MachineContext).
Abbreviation StateNode := (xstate.StateNode StateValue MachineContext Event fileHandlers.Call).

Definition context (input : Input.t) : MachineContext := {|
  basePath := Input.basePath input;
  destinationPath := Input.destinationPath input;
  directoriesToCheck := [];
  dirsToEvaluate := [];
  dirsToMove := [];
  filesToEmail := [];
  dirsToReport := [];
  processedFiles := [];
  acceptedFileTypes :=
    ["mp4"; "mkv"; "avi"; "mov"; "m4v"; "mpg"; "mpeg"; "wmv"; "flv"; "ts"; "mts"]
|}.

Definition idle_node : StateNode := {|
  xstate.entry := [];
  xstate.invoke := None;
  xstate.on := fun event =>
    match event with
    | START_SCAN => [ {| xstate.target := Scanning; xstate.actions := [] |} ]
    | _ => []
    end
|}.

Definition Scanning_node : StateNode := {|
  xstate.entry := [];
  xstate.invoke := Some {|
    xstate.id := "scanLibrary";
    xstate.input := fun ctx => basePath ctx;
    xstate.src := fun input => fileHandlers.scanDirectories input
  |};
  xstate.on := fun event =>
    match event with
    | done_actor_scanLibrary output =>
        [ {| xstate.target := CheckingFilePermissions;
             xstate.actions := [ assign [ Partial.directoriesToCheck output ] ] |} ]
    | error_actor_scanLibrary _ =>
        [ {| xstate.target := ReportingErrors; xstate.actions := [] |} ]
    | _ => []
    end
|}.

Definition CheckingFilePermissions_node : StateNode := {|
  xstate.entry := [];
  xstate.invoke := Some {|
    xstate.id := "checkFilePermissions";
    xstate.input := fun ctx => directoriesToCheck ctx;
    xstate.src := fun input => fileHandlers.checkFilePermissions input
  |};
  xstate.on := fun event =>
    match event with
    | done_actor_checkFilePermissions output =>
        [ {| xstate.target := EvaluatingFiles;
             xstate.actions :=
               [ assign [ Partial.dirsToEvaluate (fileHandlers.Permissions.dirsToEvaluate output);
                          Partial.dirsToReport (fileHandlers.Permissions.dirsToReport output) ] ] |} ]
    | error_actor_checkFilePermissions error =>
        [ {| xstate.target := ReportingErrors;
             xstate.actions :=
               [ assign [ Partial.dirsToReport (fileHandlers.PermissionsError.dirsToReport error) ] ] |} ]
    | _ => []
    end
|}.

Definition ReportingErrors_node : StateNode := {|
  xstate.entry := [ xstate.action_object "emailErrors" None ];
  xstate.invoke := None;
  xstate.on := fun event =>
    match event with
    | RESTART => [ {| xstate.target := idle; xstate.actions := [] |} ]
    | _ => []
    end
|}.

Definition EvaluatingFiles_node : StateNode := {|
  xstate.entry := [];
  xstate.invoke := Some {|
    xstate.id := "evaluatingFiles";
    xstate.input := fun ctx => (dirsToEvaluate ctx, acceptedFileTypes ctx);
    xstate.src := fun input => fileHandlers.evaluateFiles (fst input) (snd input)
  |};
  xstate.on := fun event =>
    match event with
    | done_actor_evaluatingFiles output =>
        [ {| xstate.target := MovingFiles;
             xstate.actions :=
               [ assign [ Partial.dirsToMove (fileHandlers.Evaluation.dirsToMove output) ] ] |} ]
    | _ => []
    end
|}.

Definition MovingFiles_node : StateNode := {|
  xstate.entry := [];
  xstate.invoke := Some {|
    xstate.id := "moveFiles";
    xstate.input := fun ctx => (dirsToMove ctx, destinationPath ctx);
    xstate.src := fun input => fileHandlers.moveFiles (fst input) (snd input)
  |};
  xstate.on := fun event =>
    match event with
    | error_actor_moveFiles _ =>
        [ {| xstate.target := ReportingErrors; xstate.actions := [] |} ]
    | done_actor_moveFiles _ =>
        [ {| xstate.target := idle; xstate.actions := [] |} ]
    | _ => []
    end
|}.

Definition states (state : StateValue) : StateNode :=
  match state with
  | idle => idle_node
  | Scanning => Scanning_node
  | CheckingFilePermissions => CheckingFilePermissions_node
  | ReportingErrors => ReportingErrors_node
  | EvaluatingFiles => EvaluatingFiles_node
  | MovingFiles => MovingFiles_node
  end.

Definition mediaScannerMachine
  : xstate.Machine StateValue MachineContext Input.t Event fileHandlers.Call :=
  xstate.createMachine
    {| xstate.context := context; xstate.initial := idle; xstate.states := states |}
    {| xstate.Implementations.actions := ∅;
       xstate.Implementations.guards := ∅;
       xstate.Implementations.delays := ∅ |}.

(** ** Running the machine *)

Abbreviation Snapshot := (xstate.Snapshot StateValue MachineContext).
Abbreviation Effect := (xstate.Effect MachineContext fileHandlers.Call).

Definition transition (snapshot : Snapshot) (event : Event) : Snapshot * list Effect :=
  xstate.transition isErrorActorEvent mediaScannerMachine snapshot event.

Definition getInitialSnapshot (input : Input.t) : Snapshot * list Effect :=
  xstate.getInitialSnapshot mediaScannerMachine input.

Definition run (snapshot : Snapshot) (events : list Event) : list (Snapshot * list Effect) :=
  xstate.run isErrorActorEvent mediaScannerMachine snapshot events.

Definition reachable (input : Input.t) (snapshot : Snapshot) : Prop :=
  xstate.reachable isErrorActorEvent mediaScannerMachine input snapshot.

(** The transition table of a state: the candidates it lists for an event. *)
Definition table (state : StateValue) (event : Event) : list Transition :=
  xstate.on (states state) event.

(** The state a step enters, if it takes a transition at all. *)
Definition entered (snapshot : Snapshot) (event : Event) : option StateValue :=
  xstate.target <$> xstate.selectTransition mediaScannerMachine snapshot event.

(** An active machine in [state] with context [ctx]. *)
Definition active_in (state : StateValue) (ctx : MachineContext) : Snapshot :=
  {| xstate.value := state; xstate.snapshot_context := ctx; xstate.status := xstate.active |}.

(** The machine stopped in [state] by an unhandled actor error. *)
Definition faulted_in (state : StateValue) (ctx : MachineContext) : Snapshot :=
  {| xstate.value := state; xstate.snapshot_context := ctx; xstate.status := xstate.error |}.

(** The same configuration with other implementations than the source's
    empty ones, as an embedder may supply them. *)
Definition with_implementations (provided : xstate.Implementations.t) :=
  xstate.createMachine (xstate.config mediaScannerMachine) provided.

(** The one entry action of the machine, as the executor receives it: no
    [params], the context at that point, and whether an implementation was
    found under its name. *)
Definition emailErrors (info : MachineContext) (exec : bool) : Effect :=
  xstate.executeAction "emailErrors" None info exec.

(** A reading of "the collaborator is invoked exactly once with [dirs] as
    its input" on the effects of a step: one action is executed, its
    implementation runs, and it is given the sequence [dirs]. *)
Definition notifies_once_with (effects : list Effect) (dirs : list string) : Prop :=
  exists type info,
    xstate.executed effects = [xstate.executeAction type (Some (js_array dirs)) info true].

(** A step that neither ends in [ReportingErrors] nor executes an action. *)
Definition unreported (step : Snapshot * list Effect) : Prop :=
  xstate.value (fst step) <> ReportingErrors /\ xstate.executed (snd step) = [].

(** ** Runs, calls and counts *)

(** The snapshot a sequence of events leads to. *)
Definition after (snapshot : Snapshot) (events : list Event) : Snapshot :=
  fold_left (fun s event => fst (transition s event)) events snapshot.

(** All the effects of a run, in the order they are asked for. *)
Definition effects_of (snapshot : Snapshot) (events : list Event) : list Effect :=
  concat (map snd (run snapshot events)).

(** The invocations a list of effects starts: actor id and call. *)
Fixpoint spawned (effects : list Effect) : list (string * fileHandlers.Call) :=
  match effects with
  | [] => []
  | xstate.spawnChild id call :: rest => (id, call) :: spawned rest
  | xstate.executeAction _ _ _ _ :: rest => spawned rest
  end.

(** The invocation each state is expected to start on a context, written
    out: the [id] of its [invoke] and its [src] applied to its [input]. *)
Definition expected_call (state : StateValue) (ctx : MachineContext)
  : list (string * fileHandlers.Call) :=
  match state with
  | idle | ReportingErrors => []
  | Scanning => [("scanLibrary", fileHandlers.scanDirectories (basePath ctx))]
  | CheckingFilePermissions =>
      [("checkFilePermissions", fileHandlers.checkFilePermissions (directoriesToCheck ctx))]
  | EvaluatingFiles =>
      [("evaluatingFiles",
        fileHandlers.evaluateFiles (dirsToEvaluate ctx) (acceptedFileTypes ctx))]
  | MovingFiles =>
      [("moveFiles", fileHandlers.moveFiles (dirsToMove ctx) (destinationPath ctx))]
  end.

(** The actor a settlement event comes from: the [<id>] of
    [xstate.done.actor.<id>] and [xstate.error.actor.<id>]. *)
Definition actor (event : Event) : option string :=
  match event with
  | START_SCAN | RESTART => None
  | done_actor_scanLibrary _ | error_actor_scanLibrary _ => Some "scanLibrary"
  | done_actor_checkFilePermissions _ | error_actor_checkFilePermissions _ =>
      Some "checkFilePermissions"
  | done_actor_evaluatingFiles _ | error_actor_evaluatingFiles _ => Some "evaluatingFiles"
  | done_actor_moveFiles _ | error_actor_moveFiles _ => Some "moveFiles"
  end.

(** The [id] of the invocation of a state, if it has one. *)
Definition invoked_id (state : StateValue) : option string :=
  match xstate.invoke (states state) with
  | Some inv => Some (xstate.id inv)
  | None => None
  end.

(** The arrows of the state chart. *)
Definition edges : list (StateValue * StateValue) :=
  [ (idle, Scanning);
    (Scanning, CheckingFilePermissions); (Scanning, ReportingErrors);
    (CheckingFilePermissions, EvaluatingFiles); (CheckingFilePermissions, ReportingErrors);
    (EvaluatingFiles, MovingFiles);
    (MovingFiles, idle); (MovingFiles, ReportingErrors);
    (ReportingErrors, idle) ].

(** Two contexts agree on the fields that are set when the machine is
    created. *)
Definition same_settings (c c' : MachineContext) : Prop :=
  basePath c' = basePath c
  /\ destinationPath c' = destinationPath c
  /\ filesToEmail c' = filesToEmail c
  /\ processedFiles c' = processedFiles c
  /\ acceptedFileTypes c' = acceptedFileTypes c.

(** The events of a cycle in which the four invocations resolve. *)
Definition resolving_cycle (L E R M : list string) (moved : JsValue) : list Event :=
  [ START_SCAN;
    done_actor_scanLibrary L;
    done_actor_checkFilePermissions
      {| fileHandlers.Permissions.dirsToEvaluate := E;
         fileHandlers.Permissions.dirsToReport := R |};
    done_actor_evaluatingFiles {| fileHandlers.Evaluation.dirsToMove := M |};
    done_actor_moveFiles moved ].

Definition is_RESTART (event : Event) : bool :=
  match event with RESTART => true | _ => false end.

Definition is_START_SCAN (event : Event) : bool :=
  match event with START_SCAN => true | _ => false end.

Definition is_scan (call : string * fileHandlers.Call) : bool :=
  match snd call with fileHandlers.scanDirectories _ => true | _ => false end.

(** ** Sample runs *)

Example initial_snapshot_is_idle :
  getInitialSnapshot {| Input.basePath := "/lib"; Input.destinationPath := "/4k" |}
  = (active_in idle (context {| Input.basePath := "/lib"; Input.destinationPath := "/4k" |}), []).
Proof. reflexivity. Qed.

Example scan_output_stored (ctx : MachineContext) :
  fst (transition (active_in Scanning ctx) (done_actor_scanLibrary ["A"; "B"]))
  = active_in CheckingFilePermissions
      {| basePath := basePath ctx; destinationPath := destinationPath ctx;
         directoriesToCheck := ["A"; "B"]; dirsToEvaluate := dirsToEvaluate ctx;
         dirsToMove := dirsToMove ctx; filesToEmail := filesToEmail ctx;
         dirsToReport := dirsToReport ctx; processedFiles := processedFiles ctx;
         acceptedFileTypes := acceptedFileTypes ctx |}.
Proof. reflexivity. Qed.

Example stale_resolution_is_dropped (ctx : MachineContext) :
  transition (active_in idle ctx) (done_actor_scanLibrary ["A"]) = (active_in idle ctx, []).
Proof. reflexivity. Qed.

Example faulted_machine_drops_events (ctx : MachineContext) :
  transition (faulted_in EvaluatingFiles ctx)
    (done_actor_evaluatingFiles {| fileHandlers.Evaluation.dirsToMove := ["A/1.mp4"] |})
  = (faulted_in EvaluatingFiles ctx, []).
Proof. reflexivity. Qed.

(** ** Events outside a state's table *)

(** The only entries of the two declared events: [START_SCAN] in [idle] and
    [RESTART] in [ReportingErrors]. *)
Lemma table_of_external (state : StateValue) (event : Event) :
  isExternal event = true ->
  table state event = [] <->
  ~ ((state = idle /\ event = START_SCAN) \/ (state = ReportingErrors /\ event = RESTART)).
Proof.
  intros Hext. destruct event; try discriminate Hext; destruct state; cbn;
    (split; [ intros Hnil; try discriminate Hnil; intros [[? ?] | [? ?]]; congruence
            | intros Hnot; try reflexivity; exfalso; apply Hnot; auto ]).
Qed.

(** An event that is not an actor error and has no entry in the current
    state's table changes nothing, whatever the snapshot. *)
Lemma unlisted_event_ignored (snapshot : Snapshot) (event : Event) :
  isErrorActorEvent event = false ->
  table (xstate.value snapshot) event = [] ->
  transition snapshot event = (snapshot, []).
Proof.
  intros Herr Hnil.
  unfold transition, xstate.transition, xstate.selectTransition, table in *. cbn in *.
  destruct (xstate.status snapshot); [ | reflexivity ].
  rewrite Hnil, Herr. reflexivity.
Qed.

Lemma external_not_error (event : Event) :
  isExternal event = true -> isErrorActorEvent event = false.
Proof. destruct event; cbn; congruence. Qed.

(** C1. In every reachable snapshot, a declared event ([START_SCAN] or
    [RESTART]) that the current state's table does not list -- that is, any
    pair other than [START_SCAN] in [idle] and [RESTART] in
    [ReportingErrors] -- is a no-op: the step returns the very same snapshot
    (state, context and status, so no fault is raised) and asks for no
    effect. *)
Theorem C1_unlisted_event_is_noop (input : Input.t) (snapshot : Snapshot) (event : Event) :
  reachable input snapshot ->
  isExternal event = true ->
  (table (xstate.value snapshot) event = [] <->
   ~ ((xstate.value snapshot = idle /\ event = START_SCAN) \/
      (xstate.value snapshot = ReportingErrors /\ event = RESTART)))
  /\ (table (xstate.value snapshot) event = [] ->
      transition snapshot event = (snapshot, [])).
Proof.
  intros _ Hext. split.
  - apply table_of_external, Hext.
  - apply unlisted_event_ignored, external_not_error, Hext.
Qed.

(** [RESTART] sent while the first scan is pending: the hypotheses of C1
    hold and the step is a no-op. *)
Lemma C1_unlisted_event_is_noop_witness :
  let input := {| Input.basePath := "/lib"; Input.destinationPath := "/4k" |} in
  let snapshot := fst (transition (fst (getInitialSnapshot input)) START_SCAN) in
  reachable input snapshot
  /\ isExternal RESTART = true
  /\ table (xstate.value snapshot) RESTART = []
  /\ transition snapshot RESTART = (snapshot, []).
Proof.
  intros input snapshot.
  assert (Hreach : reachable input snapshot).
  { apply xstate.reachable_transition, xstate.reachable_initial. }
  split; [ exact Hreach | split; [ reflexivity | split; [ reflexivity | ] ] ].
  apply (C1_unlisted_event_is_noop input snapshot RESTART Hreach eq_refl).
  reflexivity.
Defined.

(** ** The entry action of ReportingErrors *)

(** C2, as amended.  A step executes an action exactly when it enters
    [ReportingErrors], and then exactly one: the action object
    [{ type: 'emailErrors' }] of the state's [entry], without [params], with
    the context on entry as its information.  Whether a handler runs is
    decided by looking up that name in the implementations; the machine as
    created has none ([actions: {}]).  The implementations do not influence
    the snapshot reached, and entering the initial state executes nothing. *)
Theorem C2_emailErrors_dispatched_on_entry
  (provided : xstate.Implementations.t) (snapshot : Snapshot) (event : Event)
  (input : Input.t) :
  let step :=
    xstate.transition isErrorActorEvent (with_implementations provided) snapshot event in
  let exec := bool_decide ("emailErrors" ∈ xstate.Implementations.actions provided) in
  xstate.executed (snd step) =
    match entered snapshot event with
    | Some ReportingErrors => [emailErrors (xstate.snapshot_context (fst step)) exec]
    | _ => []
    end
  /\ fst step = fst (transition snapshot event)
  /\ bool_decide ("emailErrors" ∈
       xstate.Implementations.actions (xstate.implementations mediaScannerMachine)) = false
  /\ xstate.executed (snd (xstate.getInitialSnapshot (with_implementations provided) input))
     = [].
Proof.
  cbn zeta.
  split; [ | split; [ | split; reflexivity ] ];
    destruct snapshot as [state ctx []]; try reflexivity;
    destruct state, event; reflexivity.
Qed.

(** C2, as stated, fails: when [checkFilePermissions] rejects with
    [{ dirsToReport: ["C"] }] the machine enters [ReportingErrors] with
    [dirsToReport = ["C"]], and the only action it hands to the executor has
    no [params] and no implementation: nothing is invoked with [["C"]] as
    input. *)
Lemma C2_no_handler_invoked_counterexample :
  let ctx := context {| Input.basePath := "/lib"; Input.destinationPath := "/4k" |} in
  let failure := {| fileHandlers.PermissionsError.dirsToReport := ["C"] |} in
  let step := transition (active_in CheckingFilePermissions ctx)
                (error_actor_checkFilePermissions failure) in
  xstate.value (fst step) = ReportingErrors
  /\ dirsToReport (xstate.snapshot_context (fst step)) = ["C"]
  /\ xstate.executed (snd step) = [emailErrors (xstate.snapshot_context (fst step)) false]
  /\ ~ notifies_once_with (snd step) ["C"].
Proof.
  cbn zeta. split; [ reflexivity | split; [ reflexivity | split; [ reflexivity | ] ] ].
  intros (type & info & Hexec). cbn in Hexec. discriminate Hexec.
Qed.

(** ** The settled invocations, state by state *)

(** C3. When [checkFilePermissions] rejects with [{ dirsToReport: R }], the
    machine goes from [CheckingFilePermissions] to [ReportingErrors]; the
    context keeps every field except [dirsToReport], which becomes [R]. *)
Theorem C3_permission_failure_sets_dirsToReport (ctx : MachineContext) (R : list string) :
  let failure := {| fileHandlers.PermissionsError.dirsToReport := R |} in
  fst (transition (active_in CheckingFilePermissions ctx)
         (error_actor_checkFilePermissions failure))
  = active_in ReportingErrors
      {| basePath := basePath ctx;
         destinationPath := destinationPath ctx;
         directoriesToCheck := directoriesToCheck ctx;
         dirsToEvaluate := dirsToEvaluate ctx;
         dirsToMove := dirsToMove ctx;
         filesToEmail := filesToEmail ctx;
         dirsToReport := R;
         processedFiles := processedFiles ctx;
         acceptedFileTypes := acceptedFileTypes ctx |}.
Proof. reflexivity. Qed.

(** C4. When [scanDirectories] rejects, whatever the reason, the machine goes
    from [Scanning] to [ReportingErrors] and the context is the one it had:
    the transition carries no action, so [dirsToReport] in particular is not
    set from the failure. *)
Theorem C4_scan_failure_keeps_context (ctx : MachineContext) (reason : JsValue) :
  let failed := transition (active_in Scanning ctx) (error_actor_scanLibrary reason) in
  table Scanning (error_actor_scanLibrary reason)
  = [ {| xstate.target := ReportingErrors; xstate.actions := [] |} ]
  /\ fst failed = active_in ReportingErrors ctx
  /\ dirsToReport (xstate.snapshot_context (fst failed)) = dirsToReport ctx.
Proof. repeat split. Qed.

(** C5. Whatever sequence [L] [scanDirectories] resolves with, the empty one
    included, the machine goes from [Scanning] to [CheckingFilePermissions]
    with [directoriesToCheck = L] and every other field as before; the
    permission check is started on [L]. *)
Theorem C5_scan_result_becomes_directoriesToCheck (ctx : MachineContext) (L : list string) :
  transition (active_in Scanning ctx) (done_actor_scanLibrary L)
  = (active_in CheckingFilePermissions
       {| basePath := basePath ctx;
          destinationPath := destinationPath ctx;
          directoriesToCheck := L;
          dirsToEvaluate := dirsToEvaluate ctx;
          dirsToMove := dirsToMove ctx;
          filesToEmail := filesToEmail ctx;
          dirsToReport := dirsToReport ctx;
          processedFiles := processedFiles ctx;
          acceptedFileTypes := acceptedFileTypes ctx |},
     [xstate.spawnChild "checkFilePermissions" (fileHandlers.checkFilePermissions L)]).
Proof. reflexivity. Qed.

(** C6. When [checkFilePermissions] resolves with
    [{ dirsToEvaluate: E, dirsToReport: R }], the machine goes from
    [CheckingFilePermissions] to [EvaluatingFiles] with [dirsToEvaluate = E]
    and [dirsToReport = R], both read from the result; the other fields are
    as before. *)
Theorem C6_permission_result_sets_two_fields (ctx : MachineContext) (E R : list string) :
  let result := {| fileHandlers.Permissions.dirsToEvaluate := E;
                   fileHandlers.Permissions.dirsToReport := R |} in
  fst (transition (active_in CheckingFilePermissions ctx)
         (done_actor_checkFilePermissions result))
  = active_in EvaluatingFiles
      {| basePath := basePath ctx;
         destinationPath := destinationPath ctx;
         directoriesToCheck := directoriesToCheck ctx;
         dirsToEvaluate := E;
         dirsToMove := dirsToMove ctx;
         filesToEmail := filesToEmail ctx;
         dirsToReport := R;
         processedFiles := processedFiles ctx;
         acceptedFileTypes := acceptedFileTypes ctx |}.
Proof. reflexivity. Qed.

(** C7. In [EvaluatingFiles], a resolution [{ dirsToMove: M }] takes the
    machine to [MovingFiles] with [dirsToMove = M], the other fields as
    before.  A rejection finds no transition: the table of [EvaluatingFiles]
    has no entry for it, no state is entered, state and context stay as they
    were, and no effect is asked for.  (The unhandled error stops the
    machine: its status becomes [error].) *)
Theorem C7_evaluation_done_moves_on_and_failure_has_no_edge
  (ctx : MachineContext) (M : list string) (reason : JsValue) :
  let result := {| fileHandlers.Evaluation.dirsToMove := M |} in
  let failed := transition (active_in EvaluatingFiles ctx) (error_actor_evaluatingFiles reason) in
  fst (transition (active_in EvaluatingFiles ctx) (done_actor_evaluatingFiles result))
  = active_in MovingFiles
      {| basePath := basePath ctx;
         destinationPath := destinationPath ctx;
         directoriesToCheck := directoriesToCheck ctx;
         dirsToEvaluate := dirsToEvaluate ctx;
         dirsToMove := M;
         filesToEmail := filesToEmail ctx;
         dirsToReport := dirsToReport ctx;
         processedFiles := processedFiles ctx;
         acceptedFileTypes := acceptedFileTypes ctx |}
  /\ table EvaluatingFiles (error_actor_evaluatingFiles reason) = []
  /\ entered (active_in EvaluatingFiles ctx) (error_actor_evaluatingFiles reason) = None
  /\ xstate.value (fst failed) = EvaluatingFiles
  /\ xstate.snapshot_context (fst failed) = ctx
  /\ snd failed = []
  /\ fst failed = faulted_in EvaluatingFiles ctx.
Proof. repeat split. Qed.

(** C8. In [MovingFiles], a resolution of [moveFiles] takes the machine to
    [idle] and a rejection takes it to [ReportingErrors]; in both cases the
    context is the one it had, whatever the value or the reason the promise
    settled with. *)
Theorem C8_move_settles_without_context_change
  (ctx : MachineContext) (output reason : JsValue) :
  transition (active_in MovingFiles ctx) (done_actor_moveFiles output)
  = (active_in idle ctx, [])
  /\ transition (active_in MovingFiles ctx) (error_actor_moveFiles reason)
     = (active_in ReportingErrors ctx, [emailErrors ctx false]).
Proof. split; reflexivity. Qed.

(** C9. [RESTART] takes an active machine from [ReportingErrors] to [idle]
    whatever its context, and the context is untouched: every field keeps the
    value it had in [ReportingErrors].  A [START_SCAN] that follows enters
    [Scanning] with that same, stale, context and starts a scan of its
    [basePath]. *)
Theorem C9_restart_keeps_context (ctx : MachineContext) :
  transition (active_in ReportingErrors ctx) RESTART = (active_in idle ctx, [])
  /\ run (active_in ReportingErrors ctx) [RESTART; START_SCAN]
     = [ (active_in idle ctx, []);
         (active_in Scanning ctx,
          [xstate.spawnChild "scanLibrary" (fileHandlers.scanDirectories (basePath ctx))]) ].
Proof. split; reflexivity. Qed.

(** ** Runs without a failure *)

(** A step on an event that is not an actor error never leads into
    [ReportingErrors] from elsewhere, and executes no action. *)
Lemma step_without_error (snapshot : Snapshot) (event : Event) :
  xstate.value snapshot <> ReportingErrors ->
  isErrorActorEvent event = false ->
  unreported (transition snapshot event).
Proof.
  destruct snapshot as [state ctx status]. cbn [xstate.value]. intros Hstate Hevent.
  destruct status.
  - destruct state, event; try discriminate Hevent; try (now contradict Hstate);
      split; cbn; congruence.
  - split; [ exact Hstate | reflexivity ].
Qed.

Lemma run_without_error (events : list Event) :
  forall snapshot : Snapshot,
    xstate.value snapshot <> ReportingErrors ->
    Forall (fun event => isErrorActorEvent event = false) events ->
    Forall unreported (run snapshot events).
Proof.
  induction events as [ | event rest IH ]; intros snapshot Hstate Hevents.
  - constructor.
  - inversion Hevents as [ | ? ? Hevent Hrest ]; subst.
    pose proof (step_without_error snapshot event Hstate Hevent) as Hstep.
    change (run snapshot (event :: rest))
      with (transition snapshot event :: run (fst (transition snapshot event)) rest).
    constructor; [ exact Hstep | ].
    apply IH; [ exact (proj1 Hstep) | exact Hrest ].
Qed.

(** C10. A cycle from [idle] in which every invocation resolves, the
    permission check with a non-empty [dirsToReport = R]: the machine visits
    [Scanning], [CheckingFilePermissions], [EvaluatingFiles], [MovingFiles]
    and is back in [idle]; no step enters [ReportingErrors] or executes an
    action, so ['emailErrors'] is never dispatched; and the context the
    machine is back in [idle] with still holds [dirsToReport = R].  More
    generally, no sequence of events without an actor error leads an [idle]
    machine into [ReportingErrors] or makes it execute an action. *)
Theorem C10_reported_dirs_of_a_successful_cycle_go_unreported
  (ctx : MachineContext) (L E R M : list string) (moved : JsValue) :
  R <> [] ->
  let cycle :=
    [ START_SCAN;
      done_actor_scanLibrary L;
      done_actor_checkFilePermissions
        {| fileHandlers.Permissions.dirsToEvaluate := E;
           fileHandlers.Permissions.dirsToReport := R |};
      done_actor_evaluatingFiles {| fileHandlers.Evaluation.dirsToMove := M |};
      done_actor_moveFiles moved ] in
  let trace := run (active_in idle ctx) cycle in
  map (fun step => xstate.value (fst step)) trace
  = [Scanning; CheckingFilePermissions; EvaluatingFiles; MovingFiles; idle]
  /\ Forall unreported trace
  /\ fst <$> last trace
     = Some (active_in idle
               {| basePath := basePath ctx;
                  destinationPath := destinationPath ctx;
                  directoriesToCheck := L;
                  dirsToEvaluate := E;
                  dirsToMove := M;
                  filesToEmail := filesToEmail ctx;
                  dirsToReport := R;
                  processedFiles := processedFiles ctx;
                  acceptedFileTypes := acceptedFileTypes ctx |})
  /\ (forall events : list Event,
        Forall (fun event => isErrorActorEvent event = false) events ->
        Forall unreported (run (active_in idle ctx) events)).
Proof.
  intros _ cycle trace.
  split; [ reflexivity | split; [ | split; [ reflexivity | ] ] ].
  - apply run_without_error; [ discriminate | ]. repeat constructor.
  - intros events Hevents. apply run_without_error; [ discriminate | exact Hevents ].
Qed.

(** A cycle over two scanned directories of which one, ["B"], fails the
    permission check: it ends in [idle] with ["B"] still in [dirsToReport]
    and nothing reported. *)
Lemma C10_reported_dirs_of_a_successful_cycle_go_unreported_witness :
  let ctx := context {| Input.basePath := "/lib"; Input.destinationPath := "/4k" |} in
  ["B"] <> ([] : list string)
  /\ Forall unreported
       (run (active_in idle ctx)
          [ START_SCAN;
            done_actor_scanLibrary ["A"; "B"];
            done_actor_checkFilePermissions
              {| fileHandlers.Permissions.dirsToEvaluate := ["A"];
                 fileHandlers.Permissions.dirsToReport := ["B"] |};
            done_actor_evaluatingFiles
              {| fileHandlers.Evaluation.dirsToMove := ["A/1.mp4"] |};
            done_actor_moveFiles js_undefined ]).
Proof.
  intros ctx.
  assert (Hne : ["B"] <> ([] : list string)) by discriminate.
  split; [ exact Hne | ].
  exact (proj1 (proj2
    (C10_reported_dirs_of_a_successful_cycle_go_unreported
       ctx ["A"; "B"] ["A"] ["B"] ["A/1.mp4"] js_undefined Hne))).
Defined.

(** ** Fields no transition writes *)

Lemma same_settings_refl (c : MachineContext) : same_settings c c.
Proof. repeat split. Qed.

Lemma same_settings_trans (c1 c2 c3 : MachineContext) :
  same_settings c1 c2 -> same_settings c2 c3 -> same_settings c1 c3.
Proof.
  unfold same_settings. intros (H1 & H2 & H3 & H4 & H5) (K1 & K2 & K3 & K4 & K5).
  repeat split; congruence.
Qed.

(** No step writes [basePath], [destinationPath], [filesToEmail],
    [processedFiles] or [acceptedFileTypes]. *)
Lemma step_keeps_settings (snapshot : Snapshot) (event : Event) :
  same_settings (xstate.snapshot_context snapshot)
    (xstate.snapshot_context (fst (transition snapshot event))).
Proof.
  destruct snapshot as [state ctx []]; [ destruct state, event | ]; repeat split.
Qed.

Lemma run_keeps_settings (events : list Event) :
  forall snapshot : Snapshot,
    Forall (fun step => same_settings (xstate.snapshot_context snapshot)
                          (xstate.snapshot_context (fst step)))
      (run snapshot events).
Proof.
  induction events as [ | event rest IH ]; intros snapshot.
  - constructor.
  - change (run snapshot (event :: rest))
      with (transition snapshot event :: run (fst (transition snapshot event)) rest).
    pose proof (step_keeps_settings snapshot event) as Hstep.
    constructor; [ exact Hstep | ].
    eapply Forall_impl; [ apply IH | ].
    intros step Hrest. cbn beta in Hrest. eapply same_settings_trans; eassumption.
Qed.

Lemma reachable_settings (input : Input.t) (snapshot : Snapshot) :
  reachable input snapshot ->
  same_settings (context input) (xstate.snapshot_context snapshot).
Proof.
  unfold reachable. induction 1 as [ | snapshot event _ IH ].
  - apply same_settings_refl.
  - eapply same_settings_trans; [ exact IH | apply step_keeps_settings ].
Qed.

(** X1. Whatever the snapshot a run starts from and whatever events it is
    fed -- settlements, declared events, in any order -- every snapshot of
    the run has the [basePath], [destinationPath], [filesToEmail],
    [processedFiles] and [acceptedFileTypes] of the start: the only fields a
    transition assigns are [directoriesToCheck], [dirsToEvaluate],
    [dirsToMove] and [dirsToReport]. *)
Theorem X1_runs_keep_the_settings (snapshot : Snapshot) (events : list Event) :
  Forall (fun step =>
            let ctx := xstate.snapshot_context snapshot in
            let ctx' := xstate.snapshot_context (fst step) in
            basePath ctx' = basePath ctx
            /\ destinationPath ctx' = destinationPath ctx
            /\ filesToEmail ctx' = filesToEmail ctx
            /\ processedFiles ctx' = processedFiles ctx
            /\ acceptedFileTypes ctx' = acceptedFileTypes ctx)
    (run snapshot events).
Proof. apply run_keeps_settings. Qed.

(** X2. In every snapshot reachable from the initial one, [basePath] and
    [destinationPath] are those of the input the machine was created with,
    [acceptedFileTypes] is the list of eleven extensions of the initial
    context, and [filesToEmail] and [processedFiles] are still empty: the
    machine never fills them. *)
Theorem X2_reachable_contexts_keep_the_input (input : Input.t) (snapshot : Snapshot) :
  reachable input snapshot ->
  let ctx := xstate.snapshot_context snapshot in
  basePath ctx = Input.basePath input
  /\ destinationPath ctx = Input.destinationPath input
  /\ acceptedFileTypes ctx
     = ["mp4"; "mkv"; "avi"; "mov"; "m4v"; "mpg"; "mpeg"; "wmv"; "flv"; "ts"; "mts"]
  /\ filesToEmail ctx = []
  /\ processedFiles ctx = [].
Proof.
  intros Hreach ctx. destruct (reachable_settings input snapshot Hreach)
    as (Hbase & Hdest & Hmail & Hdone & Htypes).
  subst ctx. rewrite Hbase, Hdest, Hmail, Hdone, Htypes. repeat split.
Qed.

Lemma X2_reachable_contexts_keep_the_input_witness :
  let input := {| Input.basePath := "/lib"; Input.destinationPath := "/4k" |} in
  let snapshot :=
    after (fst (getInitialSnapshot input))
      [START_SCAN; done_actor_scanLibrary ["/lib/a"];
       error_actor_checkFilePermissions
         {| fileHandlers.PermissionsError.dirsToReport := ["/lib/a"] |}] in
  reachable input snapshot
  /\ xstate.value snapshot = ReportingErrors
  /\ basePath (xstate.snapshot_context snapshot) = "/lib"
  /\ processedFiles (xstate.snapshot_context snapshot) = [].
Proof.
  intros input snapshot.
  assert (Hreach : reachable input snapshot).
  { do 3 apply xstate.reachable_transition. apply xstate.reachable_initial. }
  pose proof (X2_reachable_contexts_keep_the_input input snapshot Hreach) as H.
  cbn zeta in H.
  split; [ exact Hreach | split; [ reflexivity | split ] ].
  - exact (proj1 H).
  - exact (proj2 (proj2 (proj2 (proj2 H)))).
Defined.

(** ** The shape of the state chart *)

(** X3. The transitions the machine can take are exactly the nine arrows
    [idle -> Scanning -> CheckingFilePermissions -> EvaluatingFiles ->
    MovingFiles -> idle] and [Scanning, CheckingFilePermissions, MovingFiles
    -> ReportingErrors -> idle]: whatever the snapshot and the event, a
    transition that is taken follows one of them, each of them is taken on
    some event whatever the context, and none is a self-loop (so
    [EvaluatingFiles] has no arrow to [ReportingErrors], and no state is
    re-entered by its own transition). *)
Theorem X3_transitions_follow_the_nine_arrows :
  (forall (snapshot : Snapshot) (event : Event) (next : StateValue),
      entered snapshot event = Some next -> In (xstate.value snapshot, next) edges)
  /\ (forall source next : StateValue,
        In (source, next) edges ->
        exists event : Event,
          forall ctx : MachineContext, entered (active_in source ctx) event = Some next)
  /\ (forall state : StateValue, ~ In (state, state) edges)
  /\ ~ In (EvaluatingFiles, ReportingErrors) edges.
Proof.
  split; [ | split; [ | split ] ].
  - intros [state ctx status] event next. destruct status; [ | discriminate ].
    destruct state, event; cbn; intros Htaken; try discriminate Htaken;
      injection Htaken as <-; cbn; repeat first [ left; reflexivity | right ].
  - intros source next Hedge. cbn in Hedge.
    destruct Hedge as [H|[H|[H|[H|[H|[H|[H|[H|[H|[]]]]]]]]]]; injection H as <- <-.
    + exists START_SCAN. reflexivity.
    + exists (done_actor_scanLibrary []). reflexivity.
    + exists (error_actor_scanLibrary js_undefined). reflexivity.
    + exists (done_actor_checkFilePermissions
                {| fileHandlers.Permissions.dirsToEvaluate := [];
                   fileHandlers.Permissions.dirsToReport := [] |}). reflexivity.
    + exists (error_actor_checkFilePermissions
                {| fileHandlers.PermissionsError.dirsToReport := [] |}). reflexivity.
    + exists (done_actor_evaluatingFiles {| fileHandlers.Evaluation.dirsToMove := [] |}).
      reflexivity.
    + exists (done_actor_moveFiles js_undefined). reflexivity.
    + exists (error_actor_moveFiles js_undefined). reflexivity.
    + exists RESTART. reflexivity.
  - intros state Hloop. cbn in Hloop.
    destruct state; repeat (destruct Hloop as [Hloop | Hloop]; [ discriminate Hloop | ]);
      exact Hloop.
  - intros Hedge. cbn in Hedge.
    repeat (destruct Hedge as [Hedge | Hedge]; [ discriminate Hedge | ]). exact Hedge.
Qed.

(** X4. What makes the machine leave a state: a transition is only ever taken
    on an event of the actor the current state invoked -- the [<id>] of the
    settlement event is the [id] of the state's [invoke] -- and, in the two
    states without an invocation, only on a declared event.  So
    [START_SCAN] and [RESTART] never take the machine out of a state whose
    operation is pending, and a settlement of another state's actor never
    moves it. *)
Theorem X4_only_the_own_actor_moves_a_state
  (snapshot : Snapshot) (event : Event) (next : StateValue) :
  entered snapshot event = Some next ->
  actor event = invoked_id (xstate.value snapshot)
  /\ (isExternal event = true <-> invoked_id (xstate.value snapshot) = None).
Proof.
  destruct snapshot as [state ctx status]. destruct status; [ | discriminate ].
  destruct state, event; cbn; intros Htaken; try discriminate Htaken;
    (split; [ reflexivity | split; intros H; (reflexivity || discriminate H) ]).
Qed.

Lemma X4_only_the_own_actor_moves_a_state_witness :
  let ctx := context {| Input.basePath := "/lib"; Input.destinationPath := "/4k" |} in
  entered (active_in MovingFiles ctx) (error_actor_moveFiles (js_string "disk full"))
  = Some ReportingErrors
  /\ actor (error_actor_moveFiles (js_string "disk full")) = invoked_id MovingFiles
  /\ invoked_id MovingFiles = Some "moveFiles".
Proof.
  intros ctx. split; [ reflexivity | split; [ | reflexivity ] ].
  exact (proj1 (X4_only_the_own_actor_moves_a_state
                  (active_in MovingFiles ctx)
                  (error_actor_moveFiles (js_string "disk full"))
                  ReportingErrors eq_refl)).
Defined.

(** ** The calls the machine makes *)

Lemma spawned_of_step (snapshot : Snapshot) (event : Event) :
  spawned (snd (transition snapshot event)) =
    match entered snapshot event with
    | Some next => expected_call next (xstate.snapshot_context (fst (transition snapshot event)))
    | None => []
    end.
Proof.
  destruct snapshot as [state ctx []]; [ destruct state, event | ]; reflexivity.
Qed.

(** X5. A step starts an invocation only when it enters a state, and then
    exactly the one of that state, on the context as the transition's
    assignments left it: [scanDirectories(basePath)] in [Scanning],
    [checkFilePermissions(directoriesToCheck)] in [CheckingFilePermissions],
    [evaluateFiles(dirsToEvaluate, acceptedFileTypes)] in [EvaluatingFiles],
    [moveFiles(dirsToMove, destinationPath)] in [MovingFiles], none in [idle]
    and [ReportingErrors].  No step asks for more than one effect, so there
    is never more than one operation in flight. *)
Theorem X5_a_step_starts_the_call_of_the_state_it_enters
  (snapshot : Snapshot) (event : Event) :
  let step := transition snapshot event in
  spawned (snd step) =
    match entered snapshot event with
    | Some next => expected_call next (xstate.snapshot_context (fst step))
    | None => []
    end
  /\ length (snd step) <= 1.
Proof.
  cbn zeta. split; [ apply spawned_of_step | ].
  destruct snapshot as [state ctx []]; [ destruct state, event | ]; cbn; lia.
Qed.

(** X6. In a machine created with [input], every call started from a
    reachable snapshot uses the caller's paths and the fixed list of
    extensions: a scan is always of [input.basePath], an evaluation always
    gets the eleven accepted file types, a move always goes to
    [input.destinationPath]. *)
Theorem X6_calls_use_the_input_paths
  (input : Input.t) (snapshot : Snapshot) (event : Event)
  (id : string) (call : fileHandlers.Call) :
  reachable input snapshot ->
  In (id, call) (spawned (snd (transition snapshot event))) ->
  match call with
  | fileHandlers.scanDirectories path => path = Input.basePath input
  | fileHandlers.checkFilePermissions _ => True
  | fileHandlers.evaluateFiles _ types =>
      types = ["mp4"; "mkv"; "avi"; "mov"; "m4v"; "mpg"; "mpeg"; "wmv"; "flv"; "ts"; "mts"]
  | fileHandlers.moveFiles _ destination => destination = Input.destinationPath input
  end.
Proof.
  intros Hreach Hcall.
  pose proof (reachable_settings input snapshot Hreach) as Hnow.
  pose proof (same_settings_trans _ _ _ Hnow (step_keeps_settings snapshot event))
    as (Hbase & Hdest & _ & _ & Htypes).
  rewrite spawned_of_step in Hcall.
  destruct (entered snapshot event) as [ next | ]; [ | contradiction ].
  destruct next; cbn in Hcall; try contradiction;
    destruct Hcall as [ Hcall | [] ]; injection Hcall as <- <-; cbn in *; auto.
Qed.

Lemma X6_calls_use_the_input_paths_witness :
  let input := {| Input.basePath := "/lib"; Input.destinationPath := "/4k" |} in
  let snapshot :=
    after (fst (getInitialSnapshot input))
      [START_SCAN; done_actor_scanLibrary ["/lib/a"];
       done_actor_checkFilePermissions
         {| fileHandlers.Permissions.dirsToEvaluate := ["/lib/a"];
            fileHandlers.Permissions.dirsToReport := [] |}] in
  let event :=
    done_actor_evaluatingFiles {| fileHandlers.Evaluation.dirsToMove := ["/lib/a/1.mp4"] |} in
  reachable input snapshot
  /\ In ("moveFiles", fileHandlers.moveFiles ["/lib/a/1.mp4"] "/4k")
       (spawned (snd (transition snapshot event)))
  /\ "/4k" = Input.destinationPath input.
Proof.
  intros input snapshot event.
  assert (Hreach : reachable input snapshot).
  { do 3 apply xstate.reachable_transition. apply xstate.reachable_initial. }
  assert (Hcall : In ("moveFiles", fileHandlers.moveFiles ["/lib/a/1.mp4"] "/4k")
                    (spawned (snd (transition snapshot event)))).
  { left. reflexivity. }
  split; [ exact Hreach | split; [ exact Hcall | ] ].
  exact (X6_calls_use_the_input_paths input snapshot event _ _ Hreach Hcall).
Defined.

(** X7. The data flow of a cycle in which everything resolves, from the
    initial snapshot: the machine calls, in this order and nothing else,
    [scanDirectories] on the input's [basePath], [checkFilePermissions] on
    what the scan returned, [evaluateFiles] on the [dirsToEvaluate] of the
    permission result with the accepted file types, and [moveFiles] on the
    [dirsToMove] of the evaluation with the input's [destinationPath].  The
    [dirsToReport] of the permission result is passed to no call. *)
Theorem X7_each_result_feeds_the_next_call
  (input : Input.t) (L E R M : list string) (moved : JsValue) :
  spawned (effects_of (fst (getInitialSnapshot input)) (resolving_cycle L E R M moved))
  = [ ("scanLibrary", fileHandlers.scanDirectories (Input.basePath input));
      ("checkFilePermissions", fileHandlers.checkFilePermissions L);
      ("evaluatingFiles",
       fileHandlers.evaluateFiles E
         ["mp4"; "mkv"; "avi"; "mov"; "m4v"; "mpg"; "mpeg"; "wmv"; "flv"; "ts"; "mts"]);
      ("moveFiles", fileHandlers.moveFiles M (Input.destinationPath input)) ]
  /\ effects_of (fst (getInitialSnapshot input)) (resolving_cycle L E R M moved)
     = map (fun call => xstate.spawnChild (fst call) (snd call))
         (spawned (effects_of (fst (getInitialSnapshot input))
                     (resolving_cycle L E R M moved))).
Proof. split; reflexivity. Qed.

(** ** Who writes which field *)

(** X8. Each of the four fields a cycle fills has its own writer.  If a step
    changes [directoriesToCheck], the machine was in [Scanning] and the
    event was the resolution of the scan with that very value; likewise
    [dirsToEvaluate] changes only on the resolution of the permission check,
    [dirsToMove] only on the resolution of the evaluation, and [dirsToReport]
    only on the resolution or the rejection of the permission check.  No
    other state or event, and no failure of scan, evaluation or move, touches
    them. *)
Theorem X8_each_field_has_its_writer (snapshot : Snapshot) (event : Event) :
  let ctx := xstate.snapshot_context snapshot in
  let ctx' := xstate.snapshot_context (fst (transition snapshot event)) in
  (directoriesToCheck ctx' <> directoriesToCheck ctx ->
   xstate.value snapshot = Scanning
   /\ event = done_actor_scanLibrary (directoriesToCheck ctx'))
  /\ (dirsToEvaluate ctx' <> dirsToEvaluate ctx ->
      xstate.value snapshot = CheckingFilePermissions
      /\ event = done_actor_checkFilePermissions
                   {| fileHandlers.Permissions.dirsToEvaluate := dirsToEvaluate ctx';
                      fileHandlers.Permissions.dirsToReport := dirsToReport ctx' |})
  /\ (dirsToMove ctx' <> dirsToMove ctx ->
      xstate.value snapshot = EvaluatingFiles
      /\ event = done_actor_evaluatingFiles
                   {| fileHandlers.Evaluation.dirsToMove := dirsToMove ctx' |})
  /\ (dirsToReport ctx' <> dirsToReport ctx ->
      xstate.value snapshot = CheckingFilePermissions
      /\ (event = done_actor_checkFilePermissions
                    {| fileHandlers.Permissions.dirsToEvaluate := dirsToEvaluate ctx';
                       fileHandlers.Permissions.dirsToReport := dirsToReport ctx' |}
          \/ event = error_actor_checkFilePermissions
                       {| fileHandlers.PermissionsError.dirsToReport := dirsToReport ctx' |})).
Proof.
  cbn zeta. destruct snapshot as [state ctx status].
  destruct status; [ | cbn; repeat split; congruence ].
  destruct state, event as [ | | L | | [E R] | [R] | [M] | | | ]; cbn;
    repeat split; try congruence; auto.
Qed.

(** ** Cycles after cycles *)

Lemma after_app (snapshot : Snapshot) (first second : list Event) :
  after snapshot (first ++ second) = after (after snapshot first) second.
Proof. unfold after. apply fold_left_app. Qed.

Lemma resolving_cycle_forgets (c1 c2 : MachineContext) (L E R M : list string)
  (moved : JsValue) :
  same_settings c1 c2 ->
  after (active_in idle c1) (resolving_cycle L E R M moved)
  = after (active_in idle c2) (resolving_cycle L E R M moved).
Proof.
  intros (Hbase & Hdest & Hmail & Hdone & Htypes). cbn.
  rewrite Hbase, Hdest, Hmail, Hdone, Htypes. reflexivity.
Qed.

(** X9. A cycle in which everything resolves leaves the machine in [idle]
    with a context that does not depend on what earlier cycles left in
    [directoriesToCheck], [dirsToEvaluate], [dirsToMove] and [dirsToReport]:
    after two such cycles the snapshot is the one the second cycle alone
    produces, so the four fields are overwritten, never accumulated.  In
    particular, running the same cycle twice with identical responses gives
    the same snapshot as running it once. *)
Theorem X9_a_resolving_cycle_overwrites_the_previous_one
  (ctx : MachineContext) (L1 E1 R1 M1 L2 E2 R2 M2 : list string) (moved1 moved2 : JsValue) :
  after (active_in idle ctx)
    (resolving_cycle L1 E1 R1 M1 moved1 ++ resolving_cycle L2 E2 R2 M2 moved2)
  = after (active_in idle ctx) (resolving_cycle L2 E2 R2 M2 moved2)
  /\ after (active_in idle ctx)
       (resolving_cycle L2 E2 R2 M2 moved2 ++ resolving_cycle L2 E2 R2 M2 moved2)
     = after (active_in idle ctx) (resolving_cycle L2 E2 R2 M2 moved2)
  /\ dirsToReport
       (xstate.snapshot_context
          (after (active_in idle ctx)
             (resolving_cycle L1 E1 R1 M1 moved1 ++ resolving_cycle L2 E2 R2 M2 moved2)))
     = R2.
Proof.
  assert (Hforget : forall L E R M moved,
             after (active_in idle ctx)
               (resolving_cycle L E R M moved ++ resolving_cycle L2 E2 R2 M2 moved2)
             = after (active_in idle ctx) (resolving_cycle L2 E2 R2 M2 moved2)).
  { intros L E R M moved. rewrite after_app.
    change (after (active_in idle ctx) (resolving_cycle L E R M moved))
      with (active_in idle
              (xstate.snapshot_context
                 (after (active_in idle ctx) (resolving_cycle L E R M moved)))).
    apply resolving_cycle_forgets. repeat split. }
  split; [ apply Hforget | split; [ apply Hforget | ] ].
  rewrite Hforget. reflexivity.
Qed.

(** X10. What the error report sees.  (a) When the move fails in a cycle
    whose permission check resolved with [dirsToReport = R], the one
    ['emailErrors'] action of the run is dispatched on a context holding
    [R].  (b) When the permission check rejects with [R], the operator
    restarts, and the next scan fails, ['emailErrors'] is dispatched a second
    time on the very same context: the report of the scan failure still
    shows the [R] of the cycle before. *)
Theorem X10_reports_show_the_last_permission_result
  (ctx : MachineContext) (L E R M : list string) (reason : JsValue) :
  xstate.executed
    (effects_of (active_in idle ctx)
       [ START_SCAN;
         done_actor_scanLibrary L;
         done_actor_checkFilePermissions
           {| fileHandlers.Permissions.dirsToEvaluate := E;
              fileHandlers.Permissions.dirsToReport := R |};
         done_actor_evaluatingFiles {| fileHandlers.Evaluation.dirsToMove := M |};
         error_actor_moveFiles reason ])
  = [ emailErrors
        {| basePath := basePath ctx;
           destinationPath := destinationPath ctx;
           directoriesToCheck := L;
           dirsToEvaluate := E;
           dirsToMove := M;
           filesToEmail := filesToEmail ctx;
           dirsToReport := R;
           processedFiles := processedFiles ctx;
           acceptedFileTypes := acceptedFileTypes ctx |} false ]
  /\ xstate.executed
       (effects_of (active_in CheckingFilePermissions ctx)
          [ error_actor_checkFilePermissions
              {| fileHandlers.PermissionsError.dirsToReport := R |};
            RESTART;
            START_SCAN;
            error_actor_scanLibrary reason ])
     = (let reported :=
          {| basePath := basePath ctx;
             destinationPath := destinationPath ctx;
             directoriesToCheck := directoriesToCheck ctx;
             dirsToEvaluate := dirsToEvaluate ctx;
             dirsToMove := dirsToMove ctx;
             filesToEmail := filesToEmail ctx;
             dirsToReport := R;
             processedFiles := processedFiles ctx;
             acceptedFileTypes := acceptedFileTypes ctx |} in
        [ emailErrors reported false; emailErrors reported false ]).
Proof. split; reflexivity. Qed.

(** ** No dead state *)

Lemma reachable_after (input : Input.t) (events : list Event) :
  forall snapshot : Snapshot,
    reachable input snapshot -> reachable input (after snapshot events).
Proof.
  induction events as [ | event rest IH ]; intros snapshot Hreach.
  - exact Hreach.
  - apply IH. apply xstate.reachable_transition. exact Hreach.
Qed.

(** X11. Every one of the six states is reachable, active, from the initial
    snapshot, whatever the input; and from every state of an active machine
    at most four events lead back to [idle], whatever the context: the chart
    has no state the machine cannot enter and none it cannot leave. *)
Theorem X11_every_state_is_entered_and_left :
  (forall (input : Input.t) (state : StateValue),
      exists snapshot : Snapshot,
        reachable input snapshot
        /\ xstate.value snapshot = state
        /\ xstate.status snapshot = xstate.active)
  /\ (forall (state : StateValue) (ctx : MachineContext),
        exists events : list Event,
          length events <= 4
          /\ xstate.value (after (active_in state ctx) events) = idle
          /\ xstate.status (after (active_in state ctx) events) = xstate.active).
Proof.
  split.
  - intros input state.
    pose (scanned := done_actor_scanLibrary []).
    pose (checked := done_actor_checkFilePermissions
                       {| fileHandlers.Permissions.dirsToEvaluate := [];
                          fileHandlers.Permissions.dirsToReport := [] |}).
    pose (evaluated := done_actor_evaluatingFiles
                         {| fileHandlers.Evaluation.dirsToMove := [] |}).
    pose (path :=
            match state with
            | idle => []
            | Scanning => [START_SCAN]
            | CheckingFilePermissions => [START_SCAN; scanned]
            | ReportingErrors => [START_SCAN; error_actor_scanLibrary js_undefined]
            | EvaluatingFiles => [START_SCAN; scanned; checked]
            | MovingFiles => [START_SCAN; scanned; checked; evaluated]
            end).
    exists (after (fst (getInitialSnapshot input)) path). split.
    + apply reachable_after. apply xstate.reachable_initial.
    + destruct state; split; reflexivity.
  - intros state ctx. destruct state.
    + exists []. cbn. repeat split. lia.
    + exists [error_actor_scanLibrary js_undefined; RESTART]. cbn. repeat split. lia.
    + exists [error_actor_checkFilePermissions
                {| fileHandlers.PermissionsError.dirsToReport := [] |}; RESTART].
      cbn. repeat split. lia.
    + exists [RESTART]. cbn. repeat split. lia.
    + exists [done_actor_evaluatingFiles {| fileHandlers.Evaluation.dirsToMove := [] |};
              done_actor_moveFiles js_undefined].
      cbn. repeat split. lia.
    + exists [done_actor_moveFiles js_undefined]. cbn. repeat split. lia.
Qed.

(** ** Nothing is retried or reported twice *)

Lemma executed_app (first second : list Effect) :
  xstate.executed (first ++ second) = xstate.executed first ++ xstate.executed second.
Proof.
  induction first as [ | [ id call | type params info exec ] rest IH ]; cbn;
    [ reflexivity | exact IH | now rewrite IH ].
Qed.

Lemma spawned_app (first second : list Effect) :
  spawned (first ++ second) = spawned first ++ spawned second.
Proof.
  induction first as [ | [ id call | type params info exec ] rest IH ]; cbn;
    [ reflexivity | now rewrite IH | exact IH ].
Qed.

Lemma effects_of_cons (snapshot : Snapshot) (event : Event) (rest : list Event) :
  effects_of snapshot (event :: rest)
  = snd (transition snapshot event) ++ effects_of (fst (transition snapshot event)) rest.
Proof. reflexivity. Qed.

(** The room a snapshot leaves for one more report: none in
    [ReportingErrors], one elsewhere. *)
Lemma step_report_budget (snapshot : Snapshot) (event : Event) :
  let room (s : Snapshot) :=
    match xstate.value s with ReportingErrors => 0 | _ => 1 end in
  length (xstate.executed (snd (transition snapshot event)))
  + room (fst (transition snapshot event))
  <= (if is_RESTART event then 1 else 0) + room snapshot.
Proof.
  destruct snapshot as [state ctx []]; [ destruct state, event | destruct state ];
    cbn; lia.
Qed.

Lemma reports_bounded (events : list Event) :
  forall snapshot : Snapshot,
    length (xstate.executed (effects_of snapshot events))
    <= length (List.filter is_RESTART events)
       + match xstate.value snapshot with ReportingErrors => 0 | _ => 1 end.
Proof.
  induction events as [ | event rest IH ]; intros snapshot.
  - cbn. lia.
  - rewrite effects_of_cons, executed_app, length_app.
    pose proof (step_report_budget snapshot event) as Hstep. cbn zeta in Hstep.
    pose proof (IH (fst (transition snapshot event))) as Hrest.
    cbn [List.filter]. destruct (is_RESTART event); cbn [length]; lia.
Qed.

(** X12. The operator is notified at most once per restart.  Along any run,
    from any snapshot and on any events, the number of ['emailErrors']
    actions dispatched is at most one more than the number of [RESTART]
    events in the run, and at most that number when the run starts in
    [ReportingErrors]: once the machine has reported, nothing but a
    [RESTART] makes another report possible. *)
Theorem X12_at_most_one_report_per_restart (snapshot : Snapshot) (events : list Event) :
  length (xstate.executed (effects_of snapshot events))
  <= S (length (List.filter is_RESTART events))
  /\ (xstate.value snapshot = ReportingErrors ->
      length (xstate.executed (effects_of snapshot events))
      <= length (List.filter is_RESTART events)).
Proof.
  pose proof (reports_bounded events snapshot) as Hbound. split.
  - destruct (xstate.value snapshot); lia.
  - intros Hstate. rewrite Hstate in Hbound. lia.
Qed.

Lemma step_scans_bounded (snapshot : Snapshot) (event : Event) :
  length (List.filter is_scan (spawned (snd (transition snapshot event))))
  <= if is_START_SCAN event then 1 else 0.
Proof.
  destruct snapshot as [state ctx []]; [ destruct state, event | ]; cbn; lia.
Qed.

(** X13. The machine never scans on its own.  Along any run, from any
    snapshot, the number of [scanDirectories] calls started is at most the
    number of [START_SCAN] events received: no settlement, no failure and no
    [RESTART] starts a scan, so nothing is retried automatically. *)
Theorem X13_every_scan_answers_a_START_SCAN (events : list Event) :
  forall snapshot : Snapshot,
    length (List.filter is_scan (spawned (effects_of snapshot events)))
    <= length (List.filter is_START_SCAN events).
Proof.
  induction events as [ | event rest IH ]; intros snapshot.
  - cbn. lia.
  - rewrite effects_of_cons, spawned_app, List.filter_app, length_app.
    pose proof (step_scans_bounded snapshot event) as Hstep.
    pose proof (IH (fst (transition snapshot event))) as Hrest.
    cbn [List.filter]. destruct (is_START_SCAN event); cbn [length]; lia.
Qed.

(** ** The one failure without a handler *)


